(** * borg_the_spire: the watch-and-communicate launcher script

    A shallow embedding of [scripts/borg_the_spire_watch_and_communicate.py]
    together with the part of the Python runtime it calls:
    [os.path.dirname], [os.path.join], [os.makedirs], [shutil.copyfile] and
    [subprocess.run].  The script is straight-line code over a file system
    and a process table, so it is embedded as a computation in a small
    monad that threads the world, logs the observable events and
    propagates Python exceptions. *)

From Stdlib Require Import ZArith List Ascii String Lia.
From Stdlib.Strings Require Import Byte.
From stdpp Require Import base gmap sets list strings.

Local Open Scope string_scope.

(** ** Path names ([posixpath]) *)

(** [os.path] is modelled as it is on POSIX, [posixpath].  On Windows
    [os.path] is [ntpath], which is not modelled: there [join] puts a
    backslash after [root_path] and [dirname] splits at the backslash as
    well, so the strings differ.  The properties below are stated on the
    names as the script builds them, [executable_original] and the like,
    not on their spelling. *)

Module posixpath.

Definition sep : ascii := "/"%char.

Definition is_sep (c : ascii) : bool := bool_decide (c = sep).

(** [p.startswith('/')] *)
Definition startswith_sep (p : string) : bool :=
  match p with
  | String c _ => is_sep c
  | EmptyString => false
  end.

(** [p.endswith('/')] *)
Fixpoint endswith_sep (p : string) : bool :=
  match p with
  | EmptyString => false
  | String c EmptyString => is_sep c
  | String _ p' => endswith_sep p'
  end.

(** [posixpath.join(a, b)]:
<<
    if b.startswith(sep):            path = b
    elif not path or path.endswith(sep): path += b
    else:                            path += sep + b
>> *)
Definition join (a b : string) : string :=
  if startswith_sep b then b
  else if bool_decide (a = "") || endswith_sep a then a +:+ b
  else a +:+ String sep b.

(** [p[:p.rfind('/') + 1]]: everything up to and including the last
    separator, [None] when [p] has no separator. *)
Fixpoint upto_last_sep (p : string) : option string :=
  match p with
  | EmptyString => None
  | String c p' =>
      match upto_last_sep p' with
      | Some h => Some (String c h)
      | None => if is_sep c then Some (String c EmptyString) else None
      end
  end.

(** [p[p.rfind('/') + 1:]] *)
Fixpoint after_last_sep (p : string) : string :=
  match p with
  | EmptyString => EmptyString
  | String c p' =>
      match upto_last_sep p' with
      | Some _ => after_last_sep p'
      | None => if is_sep c then p' else p
      end
  end.

(** [head.rstrip('/')] *)
Fixpoint rstrip_sep (p : string) : string :=
  match p with
  | EmptyString => EmptyString
  | String c p' =>
      match rstrip_sep p' with
      | EmptyString => if is_sep c then EmptyString else String c EmptyString
      | r => String c r
      end
  end.

(** [posixpath.split(p)]:
<<
    i = p.rfind(sep) + 1
    head, tail = p[:i], p[i:]
    if head and head != sep*len(head): head = head.rstrip(sep)
>>
    A head made of separators only strips to the empty string, and is
    then kept as it is. *)
Definition split (p : string) : string * string :=
  match upto_last_sep p with
  | None => ("", p)
  | Some head =>
      (match rstrip_sep head with
       | EmptyString => head
       | stripped => stripped
       end,
       after_last_sep p)
  end.

(** [posixpath.dirname(p)] is the head of [split]. *)
Definition dirname (p : string) : string := fst (split p).

(** [posixpath.basename(p)] is the tail of [split]. *)
Definition basename (p : string) : string := snd (split p).

(** [p.split('/')] *)
Fixpoint components (p : string) : list string :=
  match p with
  | EmptyString => [""]
  | String c p' =>
      if is_sep c then "" :: components p'
      else match components p' with
           | x :: xs => String c x :: xs
           | [] => [String c ""]
           end
  end.

End posixpath.

(** ** The world the script runs in *)

(** A resolved path: its components, innermost first, so that the parent
    directory is the tail and the root is [[]]. *)
Abbreviation path := (list string).

Inductive node : Type :=
| Dir
| File (content : list byte).

(** The file system is a table from resolved paths to nodes.  [w_noread]
    and [w_nowrite] are the paths the script has no permission to read or
    to modify, [w_busy] the executable images of processes that are alive
    (an image cannot be opened for writing while it runs: a sharing
    violation on Windows, [ETXTBSY] on Linux), and [w_disk_full] says that
    no data block can be allocated. *)
Record world : Type := World {
  w_cwd : path;
  w_fs : gmap path node;
  w_noread : gset path;
  w_nowrite : gset path;
  w_busy : gset path;
  w_disk_full : bool
}.

Definition set_fs (w : world) (fs : gmap path node) : world :=
  {| w_cwd := w_cwd w; w_fs := fs; w_noread := w_noread w;
     w_nowrite := w_nowrite w; w_busy := w_busy w;
     w_disk_full := w_disk_full w |}.

(** One step of path resolution: empty components and [.] stay, [..]
    goes to the parent, a name goes down.  (Symbolic links are not
    modelled.) *)
Definition walk (stack : path) (c : string) : path :=
  if bool_decide (c = "") || bool_decide (c = ".") then stack
  else if bool_decide (c = "..") then tail stack
  else c :: stack.

Definition resolve (cwd : path) (name : string) : path :=
  fold_left walk (posixpath.components name)
            (if posixpath.startswith_sep name then [] else cwd).

(** [os.stat]: a path names a node only when every ancestor is a
    directory. *)
Fixpoint stat (fs : gmap path node) (p : path) : option node :=
  match p with
  | [] => Some Dir
  | _ :: parent =>
      match stat fs parent with
      | Some Dir => fs !! p
      | _ => None
      end
  end.

(** [os.path.exists] and [os.path.isdir] *)
Definition path_exists (fs : gmap path node) (p : path) : bool :=
  match stat fs p with Some _ => true | None => false end.

Definition path_isdir (fs : gmap path node) (p : path) : bool :=
  match stat fs p with Some Dir => true | _ => false end.

(** ** Exceptions, events and the monad of Python statements *)

Inductive errno : Type :=
| ENOENT | EEXIST | ENOTDIR | EISDIR | EACCES | ETXTBSY | ENOSPC | ENOEXEC.

(** [OSError] carries the error number and the file it is about
    ([FileNotFoundError] is [OSError ENOENT], [FileExistsError] is
    [OSError EEXIST], [PermissionError] is [OSError EACCES], ...). *)
Inductive exn : Type :=
| OSError (code : errno) (filename : path)
| SameFileError (src dst : path)
| KeyboardInterrupt.

(** What an observer of the script sees. *)
Inductive event : Type :=
| EvMakedirs (dir : path)
| EvCopy (src dst : path) (copied : bool)
| EvSpawn (image : path) (argv : list string)
| EvKill (image : path)
| EvExit (image : path) (returncode : Z).

(** A statement returns, raises, or never comes back. *)
Inductive result (A : Type) : Type :=
| Returned (a : A)
| Raised (e : exn)
| Blocked.
Arguments Returned {A} a.
Arguments Raised {A} e.
Arguments Blocked {A}.

Record run (A : Type) : Type := Run {
  trace : list event;
  final : world;
  outcome : result A
}.
Arguments Run {A} trace final outcome.
Arguments trace {A} r.
Arguments final {A} r.
Arguments outcome {A} r.

Definition py (A : Type) : Type := world -> run A.

#[export] Instance py_ret : MRet py := fun A a w => Run [] w (Returned a).

#[export] Instance py_bind : MBind py := fun A B f m w =>
  let r := m w in
  match outcome r with
  | Returned a =>
      let r' := f a (final r) in
      Run (trace r ++ trace r') (final r') (outcome r')
  | Raised e => Run (trace r) (final r) (Raised e)
  | Blocked => Run (trace r) (final r) Blocked
  end.

Definition raise {A : Type} (e : exn) : py A := fun w => Run [] w (Raised e).

Definition log (ev : event) : py unit := fun w => Run [ev] w (Returned tt).

(** [pass] *)
Definition pass : py unit := mret tt.

(** [try: body / except OSError as e: handler(e)] *)
Definition try_except_OSError {A : Type} (body : py A)
    (handler : errno -> path -> py A) : py A := fun w =>
  let r := body w in
  match outcome r with
  | Raised (OSError code filename) =>
      let r' := handler code filename (final r) in
      Run (trace r ++ trace r') (final r') (outcome r')
  | _ => r
  end.

(** The status the interpreter exits with: 0 when the script runs to its
    end, 1 on an uncaught exception, and the death by [SIGINT] (130 for a
    shell) on an uncaught [KeyboardInterrupt]; a blocked script has not
    exited. *)
Definition exit_status {A : Type} (r : result A) : option Z :=
  match r with
  | Returned _ => Some 0%Z
  | Raised KeyboardInterrupt => Some 130%Z
  | Raised _ => Some 1%Z
  | Blocked => None
  end.

(** ** The library calls *)

(** The error of a lookup that fails: [ENOTDIR] when the path runs
    through a regular file, [ENOENT] when a component is missing. *)
Fixpoint lookup_errno (fs : gmap path node) (p : path) : errno :=
  match p with
  | [] => ENOENT
  | _ :: parent =>
      match stat fs parent with
      | Some Dir => ENOENT
      | Some (File _) => ENOTDIR
      | None => lookup_errno fs parent
      end
  end.

(** [os.mkdir] on a resolved path. *)
Definition mkdir (p : path) : py unit := fun w =>
  match p with
  | [] => raise (OSError EEXIST p) w
  | _ :: parent =>
      match stat (w_fs w) parent with
      | None => raise (OSError (lookup_errno (w_fs w) p) p) w
      | Some (File _) => raise (OSError ENOTDIR p) w
      | Some Dir =>
          match w_fs w !! p with
          | Some _ => raise (OSError EEXIST p) w
          | None =>
              if bool_decide (parent ∈ w_nowrite w)
              then raise (OSError EACCES p) w
              else Run [] (set_fs w (<[p := Dir]> (w_fs w))) (Returned tt)
          end
      end
  end.

(** [os.makedirs(name, exist_ok)]:
<<
      head, tail = path.split(name)
      if head and tail and not path.exists(head):
          try: makedirs(head, exist_ok=exist_ok)
          except FileExistsError: pass
      try: mkdir(name, mode)
      except OSError:
          if not exist_ok or not path.isdir(name): raise
>>
    on resolved paths, where the head of a name is the parent of its
    path. *)
Fixpoint makedirs (p : path) (exist_ok : bool) : py unit :=
  (match p with
   | _ :: head => fun w =>
       if path_exists (w_fs w) head then pass w
       else try_except_OSError (makedirs head exist_ok)
              (fun code filename =>
                 match code with
                 | EEXIST => pass
                 | _ => raise (OSError code filename)
                 end) w
   | [] => pass
   end) ;;
  try_except_OSError (mkdir p)
    (fun code filename w =>
       if negb exist_ok || negb (path_isdir (w_fs w) p)
       then raise (OSError code filename) w
       else pass w).

Definition os_makedirs (name : string) (exist_ok : bool) : py unit := fun w =>
  let p := resolve (w_cwd w) name in
  (log (EvMakedirs p) ;; makedirs p exist_ok) w.

(** [open(src, 'rb')] followed by reading the whole file. *)
Definition read_file (p : path) : py (list byte) := fun w =>
  match stat (w_fs w) p with
  | None => raise (OSError (lookup_errno (w_fs w) p) p) w
  | Some Dir => raise (OSError EISDIR p) w
  | Some (File content) =>
      if bool_decide (p ∈ w_noread w) then raise (OSError EACCES p) w
      else (mret content : py (list byte)) w
  end.

(** [open(dst, 'wb')]: the file is created or truncated. *)
Definition open_for_writing (p : path) : py unit := fun w =>
  match p with
  | [] => raise (OSError EISDIR p) w
  | _ :: parent =>
      match stat (w_fs w) parent with
      | None => raise (OSError (lookup_errno (w_fs w) p) p) w
      | Some (File _) => raise (OSError ENOTDIR p) w
      | Some Dir =>
          match w_fs w !! p with
          | Some Dir => raise (OSError EISDIR p) w
          | Some (File _) =>
              if bool_decide (p ∈ w_busy w) then raise (OSError ETXTBSY p) w
              else if bool_decide (p ∈ w_nowrite w)
              then raise (OSError EACCES p) w
              else Run [] (set_fs w (<[p := File []]> (w_fs w))) (Returned tt)
          | None =>
              if bool_decide (parent ∈ w_nowrite w)
              then raise (OSError EACCES p) w
              else Run [] (set_fs w (<[p := File []]> (w_fs w))) (Returned tt)
          end
      end
  end.

(** Writing the data into the opened file. *)
Definition write_file (p : path) (content : list byte) : py unit := fun w =>
  match content with
  | [] => pass w
  | _ :: _ =>
      if w_disk_full w then raise (OSError ENOSPC p) w
      else Run [] (set_fs w (<[p := File content]> (w_fs w))) (Returned tt)
  end.

(** [shutil.copyfile(src, dst)]:
<<
      if _samefile(src, dst): raise SameFileError
      with open(src, 'rb') as fsrc:
          with open(dst, 'wb') as fdst:
              copyfileobj(fsrc, fdst)
>>
    The file table has one node per path: hard links and symbolic links
    are not modelled, so [_samefile], which compares the files the two
    names lead to, is the equality of the resolved paths here. *)
Definition copyfile (s d : path) : py unit := fun w =>
  if bool_decide (s = d) && path_exists (w_fs w) s
  then raise (SameFileError s d) w
  else (content ← read_file s;
        open_for_writing d ;;
        write_file d content) w.

Definition shutil_copyfile (src dst : string) : py unit := fun w =>
  let s := resolve (w_cwd w) src in
  let d := resolve (w_cwd w) dst in
  let r := copyfile s d w in
  Run (trace r ++
       [EvCopy s d (match outcome r with Returned _ => true | _ => false end)])
      (final r) (outcome r).

(** What the launched process does, as far as the script can tell. *)
Inductive child_behaviour : Type :=
| ExecFails (code : errno)
| Exits (returncode : Z) (after : world)
| NeverExits
| Interrupted (returncode : Z) (after : world).

(** [subprocess.run([program] + args)]: start the program, wait for it.
    [check] is not set, so the return code is handed back whatever it is.
    When the operator interrupts the wait, [run] kills the process and
    lets [KeyboardInterrupt] through; a kill is not refused, and
    [EvExit] is the end of the killed process. *)
Definition subprocess_run
    (child : path -> list string -> world -> child_behaviour)
    (program : string) (args : list string) : py Z := fun w =>
  let image := resolve (w_cwd w) program in
  let argv := program :: args in
  match stat (w_fs w) image with
  | None => raise (OSError (lookup_errno (w_fs w) image) image) w
  | Some Dir => raise (OSError EACCES image) w
  | Some (File _) =>
      match child image argv w with
      | ExecFails code => raise (OSError code image) w
      | Exits returncode after =>
          Run [EvSpawn image argv; EvExit image returncode] after
              (Returned returncode)
      | NeverExits => Run [EvSpawn image argv] w Blocked
      | Interrupted returncode after =>
          Run [EvSpawn image argv; EvKill image; EvExit image returncode]
              after (Raised KeyboardInterrupt)
      end
  end.

(** ** The script *)

Section Script.

(** The behaviour of whatever gets launched is a parameter. *)
Context (child : path -> list string -> world -> child_behaviour).

(** [__file__] is the script's own path. *)
Variable file : string.

Definition root_path : string :=
  posixpath.dirname (posixpath.dirname file).
Definition executable_original : string :=
  posixpath.join root_path "target/debug/borg_the_spire.exe".
Definition executable_copy_1 : string :=
  posixpath.join root_path "target/borg_the_spire/borg_the_spire_copy_1.exe".
Definition executable_copy_2 : string :=
  posixpath.join root_path "target/borg_the_spire/borg_the_spire_copy_2.exe".
Definition last_state_path : string :=
  posixpath.join root_path "data/last_state.json".

Definition script : py Z :=
  os_makedirs (posixpath.join root_path "target/borg_the_spire") true ;;
  shutil_copyfile executable_original executable_copy_1 ;;
  subprocess_run child executable_copy_1
    ["watch"; executable_original; executable_copy_2;
     "communicate"; last_state_path].

(** The files the script names, as the world [w] it starts in resolves
    them. *)
Definition slot_dir (w : world) : path :=
  resolve (w_cwd w) (posixpath.join root_path "target/borg_the_spire").
Definition original (w : world) : path :=
  resolve (w_cwd w) executable_original.
Definition copy_1 (w : world) : path := resolve (w_cwd w) executable_copy_1.
Definition copy_2 (w : world) : path := resolve (w_cwd w) executable_copy_2.

(** The candidate slots, in the order the script defines them. *)
Definition candidate_slots (w : world) : list path := [copy_1 w; copy_2 w].

(** The argument vector of the launch. *)
Definition launch_argv : list string :=
  [executable_copy_1; "watch"; executable_original; executable_copy_2;
   "communicate"; last_state_path].

(** The executions of the script, by the first statement that does not
    return.  [script_execution] below shows that every run of [script]
    is one of them. *)
Inductive execution (w : world) : run Z -> Prop :=
| ExMakedirsRaises w1 e :
    makedirs (slot_dir w) true w = Run [] w1 (Raised e) ->
    execution w (Run [EvMakedirs (slot_dir w)] w1 (Raised e))
| ExCopyRaises w1 w2 e :
    makedirs (slot_dir w) true w = Run [] w1 (Returned tt) ->
    copyfile (original w) (copy_1 w) w1 = Run [] w2 (Raised e) ->
    execution w
      (Run [EvMakedirs (slot_dir w); EvCopy (original w) (copy_1 w) false]
           w2 (Raised e))
| ExExecFails w1 w2 code :
    makedirs (slot_dir w) true w = Run [] w1 (Returned tt) ->
    copyfile (original w) (copy_1 w) w1 = Run [] w2 (Returned tt) ->
    child (copy_1 w) launch_argv w2 = ExecFails code ->
    execution w
      (Run [EvMakedirs (slot_dir w); EvCopy (original w) (copy_1 w) true]
           w2 (Raised (OSError code (copy_1 w))))
| ExExits w1 w2 returncode after :
    makedirs (slot_dir w) true w = Run [] w1 (Returned tt) ->
    copyfile (original w) (copy_1 w) w1 = Run [] w2 (Returned tt) ->
    child (copy_1 w) launch_argv w2 = Exits returncode after ->
    execution w
      (Run [EvMakedirs (slot_dir w); EvCopy (original w) (copy_1 w) true;
            EvSpawn (copy_1 w) launch_argv; EvExit (copy_1 w) returncode]
           after (Returned returncode))
| ExNeverExits w1 w2 :
    makedirs (slot_dir w) true w = Run [] w1 (Returned tt) ->
    copyfile (original w) (copy_1 w) w1 = Run [] w2 (Returned tt) ->
    child (copy_1 w) launch_argv w2 = NeverExits ->
    execution w
      (Run [EvMakedirs (slot_dir w); EvCopy (original w) (copy_1 w) true;
            EvSpawn (copy_1 w) launch_argv]
           w2 Blocked)
| ExInterrupted w1 w2 returncode after :
    makedirs (slot_dir w) true w = Run [] w1 (Returned tt) ->
    copyfile (original w) (copy_1 w) w1 = Run [] w2 (Returned tt) ->
    child (copy_1 w) launch_argv w2 = Interrupted returncode after ->
    execution w
      (Run [EvMakedirs (slot_dir w); EvCopy (original w) (copy_1 w) true;
            EvSpawn (copy_1 w) launch_argv; EvKill (copy_1 w);
            EvExit (copy_1 w) returncode]
           after (Raised KeyboardInterrupt)).

End Script.

(** A statement is quiet when it logs nothing, comes back (returning or
    raising), and leaves everything but the files as it was. *)
Definition quiet {A : Type} (m : py A) : Prop :=
  forall w, trace (m w) = []
            /\ final (m w) = set_fs w (w_fs (final (m w)))
            /\ outcome (m w) ≠ Blocked.

(** ** Observations on a trace *)

(** The copies attempted: source, destination, and whether it was made. *)
Definition copies (t : list event) : list (path * path * bool) :=
  omap (fun ev => match ev with
                  | EvCopy s d ok => Some (s, d, ok)
                  | _ => None
                  end) t.

(** The processes launched: image and argument vector. *)
Definition launches (t : list event) : list (path * list string) :=
  omap (fun ev => match ev with
                  | EvSpawn image argv => Some (image, argv)
                  | _ => None
                  end) t.

Fixpoint remove_one (image : path) (live : list path) : list path :=
  match live with
  | [] => []
  | x :: live' => if decide (x = image) then live' else x :: remove_one image live'
  end.

(** The launched instances that are alive after the events of [t]: an
    instance lives from its [EvSpawn] to its [EvExit]. *)
Definition alive_step (live : list path) (ev : event) : list path :=
  match ev with
  | EvSpawn image _ => image :: live
  | EvExit image _ => remove_one image live
  | _ => live
  end.

Definition alive (t : list event) : list path := fold_left alive_step t [].

(** [shutil.copyfile] can read its source. *)
Definition readable (w : world) (p : path) : bool :=
  match stat (w_fs w) p with
  | Some (File _) => negb (bool_decide (p ∈ w_noread w))
  | _ => false
  end.

(** [shutil.copyfile] can create or truncate its destination. *)
Definition writable (w : world) (p : path) : bool :=
  match p with
  | [] => false
  | _ :: parent =>
      match stat (w_fs w) parent with
      | Some Dir =>
          match w_fs w !! p with
          | Some Dir => false
          | Some (File _) =>
              negb (bool_decide (p ∈ w_busy w))
              && negb (bool_decide (p ∈ w_nowrite w))
          | None => negb (bool_decide (parent ∈ w_nowrite w))
          end
      | _ => false
      end
  end.

(** What keeps [shutil.copyfile] from copying [s] to [d]: the source
    cannot be read, the destination cannot be created or truncated, or
    the disk has no room for the bytes of the source. *)
Definition cannot_copy (w : world) (s d : path) : Prop :=
  readable w s = false
  \/ writable w d = false
  \/ (w_disk_full w = true
      /\ exists b content, stat (w_fs w) s = Some (File (b :: content))).

(** ** The design document's rules, in its own words *)

(** Modelled from the spec: the choice of the slot-rotating copier,
    [obtain_copy(artifact_path, candidate_slots, previous_slot)] of
    section 4.1.  The script makes the copy of a first start only; the
    copier that rotates is part of the launched executable, whose code is
    not among the sources.  "Choose the first candidate slot different
    from [previous_slot]." *)
Definition spec_choose_slot (candidates : list path)
    (previous_slot : option path) : option path :=
  List.find (fun c => negb (bool_decide (Some c = previous_slot))) candidates.

(** Modelled from the spec: the slots of [n] rotations that follow one
    another, in the launched executable as above.  The chosen slot
    "records which slot this is, for the next rotation's exclusion rule":
    the slot a rotation chose is the previous slot of the next. *)
Fixpoint rotation_slots (candidates : list path)
    (previous_slot : option path) (n : nat) : list path :=
  match n with
  | O => []
  | S n' =>
      match spec_choose_slot candidates previous_slot with
      | Some slot => slot :: rotation_slots candidates (Some slot) n'
      | None => []
      end
  end.

(** "The caller retries the copy after a delay": a copy that failed is
    attempted again. *)
Definition retries_failed_copy (t : list event) : Prop :=
  forall s d, In (s, d, false) (copies t) -> 2 <= length (copies t).

(** "Launches that copy in initialize mode": the word after the program
    is the mode. *)
Definition launch_mode (argv : list string) : string := nth 1 argv "".

Definition launches_in_mode (mode : string) (t : list event) : Prop :=
  forall image argv, In (image, argv) (launches t) -> launch_mode argv = mode.

(** "Exits 0 on a clean explicit stop": the operator's stop request
    reaches the script as an interrupt of its wait. *)
Definition stopped_by_operator (t : list event) : Prop :=
  exists image, In (EvKill image) t.

Definition exits_zero_on_stop (r : run Z) : Prop :=
  stopped_by_operator (trace r) -> exit_status (outcome r) = Some 0%Z.

(** "Every execution performs exactly one artifact copy and exactly one
    process launch." *)
Definition one_copy_one_launch (t : list event) : Prop :=
  length (filter (fun c => c.2 = true) (copies t)) = 1
  /\ length (launches t) = 1.

(** ** A concrete project, for the examples *)

Module Scenario.

Definition file : string :=
  "/home/eli/borg_the_spire/scripts/borg_the_spire_watch_and_communicate.py".

Definition project : path := ["borg_the_spire"; "eli"; "home"].

Definition artifact : list byte := [x4d; x5a; x90; x00].

(** The project before the first build: no [target] directory. *)
Definition fs_unbuilt : gmap path node :=
  list_to_map
    [(["home"], Dir); (["eli"; "home"], Dir); (project, Dir);
     ("scripts" :: project, Dir); ("data" :: project, Dir)].

(** The project after a build. *)
Definition fs_built : gmap path node :=
  <["borg_the_spire.exe" :: "debug" :: "target" :: project := File artifact]>
    (<["debug" :: "target" :: project := Dir]>
       (<["target" :: project := Dir]> fs_unbuilt)).

Definition unbuilt : world :=
  {| w_cwd := project; w_fs := fs_unbuilt; w_noread := ∅; w_nowrite := ∅;
     w_busy := ∅; w_disk_full := false |}.

Definition built : world := set_fs unbuilt fs_built.

(** The launched program runs and exits with code 0, leaving the files
    as they are. *)
Definition child_exits (image : path) (argv : list string) (w : world)
  : child_behaviour := Exits 0 w.

(** The operator interrupts the script while the program runs. *)
Definition child_interrupted (image : path) (argv : list string) (w : world)
  : child_behaviour := Interrupted (-9) w.

(** The built project once the script has made the directory of the
    copy slots. *)
Definition prepared : world :=
  final (os_makedirs
           (posixpath.join (root_path file) "target/borg_the_spire")
           true built).

Definition slot_1 : path :=
  "borg_the_spire_copy_1.exe" :: "borg_the_spire" :: "target" :: project.
Definition slot_2 : path :=
  "borg_the_spire_copy_2.exe" :: "borg_the_spire" :: "target" :: project.

End Scenario.

(** ** Further observations *)

(** A launched program that leaves the world as it found it. *)
Definition leaves_world_alone
    (child : path -> list string -> world -> child_behaviour) : Prop :=
  forall image argv w,
    match child image argv w with
    | Exits _ after | Interrupted _ after => after = w
    | _ => True
    end.




(** A statement raises exceptions in [P] only. *)
Definition raises_only {A : Type} (P : exn -> Prop) (m : py A) : Prop :=
  forall w e, outcome (m w) = Raised e -> P e.

Definition is_OSError (e : exn) : Prop :=
  exists code filename, e = OSError code filename.

(** More worlds for the examples. *)
Module Cases.

(** A regular file sits where the directory of the copy slots should
    be. *)
Definition blocked : world :=
  set_fs Scenario.built
    (<["borg_the_spire" :: "target" :: Scenario.project := File []]>
       Scenario.fs_built).

(** The world a first run leaves, with the program it launched still
    alive. *)
Definition still_running : world :=
  let w := final (script Scenario.child_exits Scenario.file Scenario.built) in
  {| w_cwd := w_cwd w; w_fs := w_fs w; w_noread := w_noread w;
     w_nowrite := w_nowrite w; w_busy := {[Scenario.slot_1]};
     w_disk_full := w_disk_full w |}.

(** The built project with the directory of the copy slots made, on a
    disk that is full. *)
Definition full_disk : world :=
  {| w_cwd := w_cwd Scenario.prepared; w_fs := w_fs Scenario.prepared;
     w_noread := w_noread Scenario.prepared;
     w_nowrite := w_nowrite Scenario.prepared;
     w_busy := w_busy Scenario.prepared; w_disk_full := true |}.


End Cases.

(** * Properties *)

(** ** Examples of the path functions *)

Example dirname_script :
  posixpath.dirname "/home/eli/borg_the_spire/scripts/watch.py"
  = "/home/eli/borg_the_spire/scripts".
Proof. reflexivity. Qed.

Example dirname_twice :
  posixpath.dirname (posixpath.dirname "/home/eli/borg_the_spire/scripts/watch.py")
  = "/home/eli/borg_the_spire".
Proof. reflexivity. Qed.

Example dirname_root : posixpath.dirname "/watch.py" = "/".
Proof. reflexivity. Qed.

Example dirname_slashes : posixpath.dirname "//a" = "//".
Proof. reflexivity. Qed.

Example dirname_trailing : posixpath.dirname "a//b///" = "a//b".
Proof. reflexivity. Qed.

Example dirname_relative : posixpath.dirname "watch.py" = "".
Proof. reflexivity. Qed.

Example join_plain : posixpath.join "/r" "target/debug" = "/r/target/debug".
Proof. reflexivity. Qed.

Example join_trailing : posixpath.join "/r/" "target" = "/r/target".
Proof. reflexivity. Qed.

Example join_empty : posixpath.join "" "target" = "target".
Proof. reflexivity. Qed.

Example join_absolute : posixpath.join "/r" "/etc" = "/etc".
Proof. reflexivity. Qed.

Example components_ex : posixpath.components "/a//b/" = [""; "a"; ""; "b"; ""].
Proof. reflexivity. Qed.


(** ** Path names and their resolution *)

Section PathNames.
Import posixpath.

Lemma string_app_nil_l (b : string) : "" +:+ b = b.
Proof. reflexivity. Qed.

Lemma string_app_cons (c : ascii) (a b : string) :
  String c a +:+ b = String c (a +:+ b).
Proof. reflexivity. Qed.

Lemma string_app_assoc (a b c : string) : (a +:+ b) +:+ c = a +:+ (b +:+ c).
Proof. induction a as [|x a IH]; [done|]. by rewrite !string_app_cons, IH. Qed.

Lemma components_nonempty p : components p ≠ [].
Proof.
  destruct p as [|c p]; simpl; [done|].
  destruct (is_sep c); [done|]. by destruct (components p).
Qed.

(** Splitting at a separator splits the list of components. *)
Lemma components_app_sep a b :
  components (a +:+ String sep b) = (components a ++ components b)%list.
Proof.
  induction a as [|c a IH].
  - reflexivity.
  - rewrite string_app_cons. simpl. rewrite IH. destruct (is_sep c); [reflexivity|].
    pose proof (components_nonempty a) as Hne.
    destruct (components a); [done|reflexivity].
Qed.

Lemma endswith_sep_inv a :
  endswith_sep a = true -> exists a0, a = a0 +:+ String sep "".
Proof.
  induction a as [|c a IH]; simpl; [done|].
  destruct a as [|c' a].
  - unfold is_sep. intros ->%bool_decide_eq_true. by exists "".
  - intros [a0 ->]%IH. by exists (String c a0).
Qed.

Lemma startswith_sep_app a b :
  a ≠ "" -> startswith_sep (a +:+ b) = startswith_sep a.
Proof. by destruct a. Qed.

(** A relative name joined to a directory resolves below what the
    directory resolves to, whichever of the three branches of [join] is
    taken. *)
Lemma resolve_join cwd a b :
  startswith_sep b = false ->
  resolve cwd (join a b) = fold_left walk (components b) (resolve cwd a).
Proof.
  intros Hb. unfold join. rewrite Hb.
  destruct (decide (a = "")) as [->|Ha].
  - simpl. rewrite string_app_nil_l. unfold resolve. by rewrite Hb.
  - rewrite bool_decide_eq_false_2 by done. simpl.
    destruct (endswith_sep a) eqn:Hend.
    + apply endswith_sep_inv in Hend as [a0 ->].
      unfold resolve. rewrite startswith_sep_app by done.
      rewrite string_app_assoc, string_app_cons, string_app_nil_l.
      rewrite !components_app_sep, !fold_left_app. reflexivity.
    + unfold resolve. rewrite startswith_sep_app by done.
      by rewrite components_app_sep, fold_left_app.
Qed.

(** Two relative names joined to the same directory are the same name
    only if they are equal. *)
Lemma join_inj a b b' :
  startswith_sep b = false -> startswith_sep b' = false ->
  join a b = join a b' -> b = b'.
Proof.
  intros Hb Hb'. unfold join. rewrite Hb, Hb'.
  destruct (bool_decide (a = "") || endswith_sep a).
  - apply String.app_inj.
  - intros H%String.app_inj. by simplify_eq.
Qed.

End PathNames.

Section ResolvedNames.
Variable file : string.
Variable w : world.

Lemma slot_dir_eq :
  slot_dir file w
  = "borg_the_spire" :: "target" :: resolve (w_cwd w) (root_path file).
Proof. unfold slot_dir. by rewrite resolve_join. Qed.

Lemma original_eq :
  original file w
  = "borg_the_spire.exe" :: "debug" :: "target"
      :: resolve (w_cwd w) (root_path file).
Proof. unfold original, executable_original. by rewrite resolve_join. Qed.

Lemma copy_1_eq : copy_1 file w = "borg_the_spire_copy_1.exe" :: slot_dir file w.
Proof.
  rewrite slot_dir_eq. unfold copy_1, executable_copy_1.
  by rewrite resolve_join.
Qed.

Lemma copy_2_eq : copy_2 file w = "borg_the_spire_copy_2.exe" :: slot_dir file w.
Proof.
  rewrite slot_dir_eq. unfold copy_2, executable_copy_2.
  by rewrite resolve_join.
Qed.

Lemma copy_1_not_copy_2 : copy_1 file w ≠ copy_2 file w.
Proof. rewrite copy_1_eq, copy_2_eq. by intros [=]. Qed.

Lemma original_not_copy_1 : original file w ≠ copy_1 file w.
Proof. rewrite original_eq, copy_1_eq. by intros [=]. Qed.

Lemma executable_copy_1_not_copy_2 :
  executable_copy_1 file ≠ executable_copy_2 file.
Proof. unfold executable_copy_1, executable_copy_2. by intros ?%join_inj. Qed.

End ResolvedNames.

(** ** The file system *)

Lemma set_fs_id w : set_fs w (w_fs w) = w.
Proof. by destruct w. Qed.

(** A new entry changes nothing for the paths that are not below it. *)
Lemma stat_insert_other fs (d : path) n (q : path) :
  length q <= length d -> q ≠ d -> stat (<[d := n]> fs) q = stat fs q.
Proof.
  induction q as [|c q IH]; intros Hlen Hne; simpl in *; [done|].
  rewrite IH; [|lia|intros ->; lia].
  by rewrite lookup_insert_ne.
Qed.

Lemma stat_insert_self fs c (parent : path) n :
  stat fs parent = Some Dir -> stat (<[c :: parent := n]> fs) (c :: parent) = Some n.
Proof.
  intros Hparent. simpl.
  rewrite stat_insert_other, Hparent; [|simpl; lia|].
  - by rewrite lookup_insert_eq.
  - intros H. apply (f_equal length) in H. simpl in H. lia.
Qed.

(** ** Statements that only touch the files *)

Lemma quiet_ret {A : Type} (a : A) : quiet (mret a).
Proof. intros w. simpl. by rewrite set_fs_id. Qed.

Lemma quiet_raise {A : Type} (e : exn) : quiet (raise (A := A) e).
Proof. intros w. simpl. by rewrite set_fs_id. Qed.

Lemma quiet_pass : quiet pass.
Proof. apply quiet_ret. Qed.

Lemma quiet_bind {A B : Type} (m : py A) (f : A -> py B) :
  quiet m -> (forall a, quiet (f a)) -> quiet (m ≫= f).
Proof.
  intros Hm Hf w. unfold mbind, py_bind.
  destruct (Hm w) as (Ht & Hw & Ho).
  destruct (outcome (m w)) as [a| |] eqn:Hout; simpl; [|done..].
  destruct (Hf a (final (m w))) as (Ht' & Hw' & Ho').
  rewrite Ht, Ht'. split; [done|]. split; [|done].
  rewrite Hw' at 1. rewrite Hw at 1. reflexivity.
Qed.

Lemma quiet_try_except {A : Type} (body : py A) handler :
  quiet body -> (forall code filename, quiet (handler code filename)) ->
  quiet (try_except_OSError body handler).
Proof.
  intros Hm Hf w. unfold try_except_OSError.
  destruct (Hm w) as (Ht & Hw & Ho).
  destruct (outcome (body w)) as [a|[code filename| |]|] eqn:Hout; simpl;
    try (rewrite Hout; done).
  destruct (Hf code filename (final (body w))) as (Ht' & Hw' & Ho').
  rewrite Ht, Ht'. split; [done|]. split; [|done].
  rewrite Hw' at 1. rewrite Hw at 1. reflexivity.
Qed.

Lemma quiet_mkdir p : quiet (mkdir p).
Proof.
  intros w. unfold mkdir.
  destruct p as [|c parent]; [apply quiet_raise|].
  destruct (stat (w_fs w) parent) as [[|content]|]; try apply quiet_raise.
  destruct (w_fs w !! (c :: parent)); [apply quiet_raise|].
  case_bool_decide; [apply quiet_raise|done].
Qed.

Lemma makedirs_unfold p exist_ok :
  makedirs p exist_ok
  = ((match p with
      | _ :: head => fun w =>
          if path_exists (w_fs w) head then pass w
          else try_except_OSError (makedirs head exist_ok)
                 (fun code filename =>
                    match code with
                    | EEXIST => pass
                    | _ => raise (OSError code filename)
                    end) w
      | [] => pass
      end) ;;
     try_except_OSError (mkdir p)
       (fun code filename w =>
          if negb exist_ok || negb (path_isdir (w_fs w) p)
          then raise (OSError code filename) w
          else pass w)).
Proof. by destruct p. Qed.

Lemma quiet_makedirs p exist_ok : quiet (makedirs p exist_ok).
Proof.
  induction p as [|c head IH]; rewrite makedirs_unfold.
  - apply quiet_bind; [apply quiet_pass|]. intros _.
    apply quiet_try_except; [apply quiet_mkdir|].
    intros code filename w. destruct (negb exist_ok || _);
      [apply quiet_raise|apply quiet_pass].
  - apply quiet_bind.
    + intros w. destruct (path_exists (w_fs w) head); [apply quiet_pass|].
      apply quiet_try_except; [apply IH|].
      intros code filename. destruct code; apply quiet_raise || apply quiet_pass.
    + intros _. apply quiet_try_except; [apply quiet_mkdir|].
      intros code filename w. destruct (negb exist_ok || _);
        [apply quiet_raise|apply quiet_pass].
Qed.

Lemma quiet_read_file p : quiet (read_file p).
Proof.
  intros w. unfold read_file.
  destruct (stat (w_fs w) p) as [[|content]|]; try apply quiet_raise.
  case_bool_decide; [apply quiet_raise|apply quiet_ret].
Qed.

Lemma quiet_open_for_writing p : quiet (open_for_writing p).
Proof.
  intros w. unfold open_for_writing.
  destruct p as [|c parent]; [apply quiet_raise|].
  destruct (stat (w_fs w) parent) as [[|content]|]; try apply quiet_raise.
  destruct (w_fs w !! (c :: parent)) as [[|old]|]; try apply quiet_raise;
    repeat case_bool_decide; try apply quiet_raise; done.
Qed.

Lemma quiet_write_file p content : quiet (write_file p content).
Proof.
  intros w. unfold write_file.
  destruct content; [apply quiet_pass|].
  destruct (w_disk_full w); [apply quiet_raise|done].
Qed.

Lemma quiet_copyfile s d : quiet (copyfile s d).
Proof.
  intros w. unfold copyfile.
  destruct (bool_decide (s = d) && path_exists (w_fs w) s); [apply quiet_raise|].
  apply quiet_bind; [apply quiet_read_file|]. intros content.
  apply quiet_bind; [apply quiet_open_for_writing|]. intros _.
  apply quiet_write_file.
Qed.

(** What a quiet statement that returns or raises looks like. *)
Lemma quiet_run {A : Type} (m : py A) w :
  quiet m ->
  (exists a, m w = Run [] (set_fs w (w_fs (final (m w)))) (Returned a))
  \/ (exists e, m w = Run [] (set_fs w (w_fs (final (m w)))) (Raised e)).
Proof.
  intros Hq. destruct (Hq w) as (Ht & Hw & Ho).
  destruct (m w) as [t w' [a|e|]] eqn:Hm; simpl in *; [left|right|done].
  - exists a. by rewrite Ht, <- Hw.
  - exists e. by rewrite Ht, <- Hw.
Qed.

(** ** [os.makedirs] *)

Lemma bind_returned_inv {A B : Type} (m : py A) (f : A -> py B) w b :
  outcome ((m ≫= f) w) = Returned b ->
  exists a, outcome (m w) = Returned a
            /\ outcome (f a (final (m w))) = Returned b
            /\ final ((m ≫= f) w) = final (f a (final (m w))).
Proof.
  unfold mbind, py_bind.
  destruct (outcome (m w)) as [a| |] eqn:Hout; simpl; [|done..].
  intros Hb. by exists a.
Qed.

(** [mkdir] under [exist_ok]: if the statement returns, the directory is
    there. *)
Lemma mkdir_exist_ok_isdir p w a :
  let stmt := try_except_OSError (mkdir p)
                (fun code filename w =>
                   if negb true || negb (path_isdir (w_fs w) p)
                   then raise (OSError code filename) w
                   else pass w) in
  outcome (stmt w) = Returned a ->
  path_isdir (w_fs (final (stmt w))) p = true.
Proof.
  simpl. unfold try_except_OSError, mkdir.
  destruct p as [|c parent]; simpl; [done|].
  destruct (stat (w_fs w) parent) as [[|content]|] eqn:Hparent; simpl;
    [destruct (w_fs w !! (c :: parent)) as [[|old]|] eqn:Hp; simpl;
     [| |case_bool_decide; simpl]|..];
    try (destruct (path_isdir (w_fs w) (c :: parent)) eqn:Hdir; simpl; done).
  intros _. unfold path_isdir. by rewrite stat_insert_self.
Qed.

(** With [exist_ok], a call that returns leaves a directory behind. *)
Lemma makedirs_isdir p w a :
  outcome (makedirs p true w) = Returned a ->
  path_isdir (w_fs (final (makedirs p true w))) p = true.
Proof.
  rewrite makedirs_unfold.
  intros (a0 & _ & Hmk & ->)%bind_returned_inv.
  by apply mkdir_exist_ok_isdir in Hmk.
Qed.

(** With [exist_ok], a directory that is there already is left alone and
    the call returns. *)
Lemma makedirs_exists p w :
  path_isdir (w_fs w) p = true -> makedirs p true w = Run [] w (Returned tt).
Proof.
  unfold path_isdir. intros Hdir. rewrite makedirs_unfold.
  destruct p as [|c parent].
  - reflexivity.
  - simpl in Hdir.
    destruct (stat (w_fs w) parent) as [[|content]|] eqn:Hparent; try done.
    destruct (w_fs w !! (c :: parent)) as [[|old]|] eqn:Hp; try done.
    unfold mbind, py_bind, try_except_OSError, mkdir, path_exists, path_isdir.
    simpl. rewrite Hparent. simpl. rewrite Hparent, Hp. simpl.
    by rewrite Hparent, Hp.
Qed.

(** ** [shutil.copyfile] *)

(** A copy that returns has read a file and left its content in the
    destination, which was no running image if it was there before. *)
Lemma copyfile_returned s d w a :
  outcome (copyfile s d w) = Returned a ->
  exists content,
    stat (w_fs w) s = Some (File content)
    /\ readable w s = true /\ writable w d = true
    /\ s ≠ d
    /\ w_fs (final (copyfile s d w)) = <[d := File content]> (w_fs w).
Proof.
  unfold copyfile, readable, writable.
  destruct (bool_decide (s = d) && path_exists (w_fs w) s) eqn:Hsame;
    [done|].
  unfold mbind, py_bind, read_file, path_exists in *.
  destruct (stat (w_fs w) s) as [[|content]|] eqn:Hs; simpl; try done.
  destruct (bool_decide (s ∈ w_noread w)) eqn:Hread; simpl; [done|].
  unfold open_for_writing.
  destruct d as [|c parent]; simpl; [done|].
  destruct (stat (w_fs w) parent) as [[|pc]|] eqn:Hparent; simpl; try done.
  assert (s ≠ c :: parent) as Hne.
  { intros ->. rewrite bool_decide_eq_true_2 in Hsame by done. done. }
  destruct (w_fs w !! (c :: parent)) as [[|old]|] eqn:Hd; simpl; try done.
  - destruct (bool_decide (c :: parent ∈ w_busy w)); simpl; [done|].
    destruct (bool_decide (c :: parent ∈ w_nowrite w)); simpl; [done|].
    unfold write_file. destruct content as [|b content]; simpl.
    + intros _. by exists [].
    + destruct (w_disk_full w); simpl; [done|]. intros _.
      exists (b :: content). by rewrite insert_insert_eq.
  - destruct (bool_decide (parent ∈ w_nowrite w)); simpl; [done|].
    unfold write_file. destruct content as [|b content]; simpl.
    + intros _. by exists [].
    + destruct (w_disk_full w); simpl; [done|]. intros _.
      exists (b :: content). by rewrite insert_insert_eq.
Qed.

(** After a copy that returns, source and destination hold the same
    bytes. *)
Lemma copyfile_same_bytes s d w a :
  length s <= length d ->
  outcome (copyfile s d w) = Returned a ->
  exists content,
    stat (w_fs w) s = Some (File content)
    /\ stat (w_fs (final (copyfile s d w))) s = Some (File content)
    /\ stat (w_fs (final (copyfile s d w))) d = Some (File content).
Proof.
  intros Hlen (content & Hs & _ & Hwr & Hne & ->)%copyfile_returned.
  exists content. split; [done|]. split.
  - by rewrite stat_insert_other.
  - unfold writable in Hwr. destruct d as [|c parent]; [done|].
    destruct (stat (w_fs w) parent) as [[|pc]|] eqn:Hparent; try done.
    by apply stat_insert_self.
Qed.

(** A source that cannot be read or a destination that cannot be written
    makes the copy raise. *)
Lemma copyfile_raises s d w :
  readable w s = false \/ writable w d = false ->
  exists e, outcome (copyfile s d w) = Raised e.
Proof.
  intros Hno.
  destruct (quiet_copyfile s d w) as (_ & _ & Hblocked).
  destruct (outcome (copyfile s d w)) as [a|e|] eqn:Hout; [|by exists e|done].
  apply copyfile_returned in Hout as (content & _ & Hr & Hw & _).
  destruct Hno; congruence.
Qed.

(** A destination that is the image of a live process is left as it is. *)
Lemma copyfile_busy s d w old :
  d ∈ w_busy w -> stat (w_fs w) d = Some (File old) ->
  exists e, copyfile s d w = Run [] w (Raised e).
Proof.
  intros Hbusy Hd. unfold copyfile.
  destruct (bool_decide (s = d) && path_exists (w_fs w) s); [by eexists|].
  unfold mbind, py_bind, read_file.
  destruct (stat (w_fs w) s) as [[|content]|]; simpl; try by eexists.
  destruct (bool_decide (s ∈ w_noread w)); simpl; [by eexists|].
  unfold open_for_writing. destruct d as [|c parent]; simpl; [by eexists|].
  simpl in Hd.
  destruct (stat (w_fs w) parent) as [[|pc]|]; simpl; try done.
  rewrite Hd. rewrite bool_decide_eq_true_2 by done. by eexists.
Qed.

(** ** The executions of the script *)

Lemma bind_run_returned {A B : Type} (m : py A) (f : A -> py B) w t w1 a :
  m w = Run t w1 (Returned a) ->
  (m ≫= f) w
  = Run (t ++ trace (f a w1)) (final (f a w1)) (outcome (f a w1)).
Proof. intros Hm. unfold mbind, py_bind. by rewrite Hm. Qed.

Lemma bind_run_raised {A B : Type} (m : py A) (f : A -> py B) w t w1 e :
  m w = Run t w1 (Raised e) -> (m ≫= f) w = Run t w1 (Raised e).
Proof. intros Hm. unfold mbind, py_bind. by rewrite Hm. Qed.

Lemma os_makedirs_run name exist_ok w w1 (o : result unit) :
  makedirs (resolve (w_cwd w) name) exist_ok w = Run [] w1 o ->
  os_makedirs name exist_ok w = Run [EvMakedirs (resolve (w_cwd w) name)] w1 o.
Proof.
  intros Hmk. unfold os_makedirs, mbind, py_bind, log. simpl.
  rewrite Hmk. by destruct o.
Qed.

Lemma shutil_copyfile_returned src dst w w2 :
  copyfile (resolve (w_cwd w) src) (resolve (w_cwd w) dst) w
  = Run [] w2 (Returned tt) ->
  shutil_copyfile src dst w
  = Run [EvCopy (resolve (w_cwd w) src) (resolve (w_cwd w) dst) true] w2
        (Returned tt).
Proof. intros Hcp. unfold shutil_copyfile. by rewrite Hcp. Qed.

Lemma shutil_copyfile_raised src dst w w2 e :
  copyfile (resolve (w_cwd w) src) (resolve (w_cwd w) dst) w
  = Run [] w2 (Raised e) ->
  shutil_copyfile src dst w
  = Run [EvCopy (resolve (w_cwd w) src) (resolve (w_cwd w) dst) false] w2
        (Raised e).
Proof. intros Hcp. unfold shutil_copyfile. by rewrite Hcp. Qed.

Lemma subprocess_run_file child program args w content :
  stat (w_fs w) (resolve (w_cwd w) program) = Some (File content) ->
  subprocess_run child program args w
  = let image := resolve (w_cwd w) program in
    match child image (program :: args) w with
    | ExecFails code => Run [] w (Raised (OSError code image))
    | Exits returncode after =>
        Run [EvSpawn image (program :: args); EvExit image returncode] after
            (Returned returncode)
    | NeverExits => Run [EvSpawn image (program :: args)] w Blocked
    | Interrupted returncode after =>
        Run [EvSpawn image (program :: args); EvKill image;
             EvExit image returncode]
            after (Raised KeyboardInterrupt)
    end.
Proof. intros Hstat. unfold subprocess_run. by rewrite Hstat. Qed.

Lemma original_copy_1_length file w :
  length (original file w) <= length (copy_1 file w).
Proof. rewrite original_eq, copy_1_eq, slot_dir_eq. simpl. lia. Qed.

(** Every run of the script is one of the six executions. *)
Lemma script_execution child file w :
  execution child file w (script child file w).
Proof.
  unfold script.
  destruct (quiet_run (makedirs (slot_dir file w) true) w
              (quiet_makedirs _ _)) as [[[] Hmk]|[e Hmk]];
    set (w1 := set_fs w _) in Hmk.
  2:{ rewrite (bind_run_raised _ _ _ _ _ _ (os_makedirs_run _ _ _ _ _ Hmk)).
      by apply ExMakedirsRaises. }
  rewrite (bind_run_returned _ _ _ _ _ _ (os_makedirs_run _ _ _ _ _ Hmk)).
  destruct (quiet_run (copyfile (original file w) (copy_1 file w)) w1
              (quiet_copyfile _ _)) as [[[] Hcp]|[e Hcp]];
    set (w2 := set_fs w1 _) in Hcp.
  2:{ rewrite (bind_run_raised _ _ _ _ _ _
                 (shutil_copyfile_raised _ _ _ _ _ Hcp)).
      by eapply ExCopyRaises. }
  rewrite (bind_run_returned _ _ _ _ _ _
             (shutil_copyfile_returned _ _ _ _ Hcp)).
  destruct (copyfile_same_bytes (original file w) (copy_1 file w) w1 tt)
    as (content & _ & _ & Hslot).
  { apply original_copy_1_length. }
  { by rewrite Hcp. }
  rewrite Hcp in Hslot. simpl in Hslot.
  erewrite subprocess_run_file by exact Hslot.
  change (resolve (w_cwd w2) (executable_copy_1 file)) with (copy_1 file w).
  change (executable_copy_1 file :: _) with (launch_argv file).
  simpl.
  destruct (child (copy_1 file w) (launch_argv file) w2) eqn:Hchild; simpl.
  - by eapply ExExecFails.
  - by eapply ExExits.
  - by eapply ExNeverExits.
  - by eapply ExInterrupted.
Qed.

(** ** What a statement raises *)

Lemma raises_only_raise {A : Type} (P : exn -> Prop) e :
  P e -> raises_only P (raise (A := A) e).
Proof. intros HP w e' [= <-]. done. Qed.

Lemma raises_only_ret {A : Type} (P : exn -> Prop) (a : A) :
  raises_only P (mret a).
Proof. intros w e. done. Qed.

Lemma raises_only_bind {A B : Type} P (m : py A) (f : A -> py B) :
  raises_only P m -> (forall a, raises_only P (f a)) ->
  raises_only P (m ≫= f).
Proof.
  intros Hm Hf w e. unfold mbind, py_bind.
  destruct (outcome (m w)) as [a|e'|] eqn:Hout; simpl; [|intros [= <-]|done].
  - apply Hf.
  - by apply (Hm w).
Qed.


Lemma is_OSError_intro code filename : is_OSError (OSError code filename).
Proof. by exists code, filename. Qed.



(** A copy between two different paths raises [OSError] and nothing
    else. *)
Lemma copyfile_raises_OSError s d w e :
  s ≠ d -> outcome (copyfile s d w) = Raised e -> is_OSError e.
Proof.
  intros Hne. unfold copyfile.
  rewrite (bool_decide_eq_false_2 _ Hne). simpl.
  apply (raises_only_bind is_OSError).
  - intros w'. unfold read_file.
    destruct (stat (w_fs w') s) as [[|content]|];
      try apply raises_only_raise, is_OSError_intro.
    case_bool_decide;
      [apply raises_only_raise, is_OSError_intro|apply raises_only_ret].
  - intros content. apply raises_only_bind.
    + intros w'. unfold open_for_writing.
      destruct d as [|c parent];
        [apply raises_only_raise, is_OSError_intro|].
      destruct (stat (w_fs w') parent) as [[|pc]|];
        try apply raises_only_raise, is_OSError_intro.
      destruct (w_fs w' !! (c :: parent)) as [[|old]|];
        repeat case_bool_decide;
        try apply raises_only_raise, is_OSError_intro; done.
    + intros _ w'. unfold write_file. destruct content;
        [apply raises_only_ret|].
      destruct (w_disk_full w');
        [apply raises_only_raise, is_OSError_intro|done].
Qed.

(** A copy that returns found room for the bytes. *)
Lemma copyfile_returned_room s d w a :
  outcome (copyfile s d w) = Returned a ->
  forall content,
    stat (w_fs w) s = Some (File content) ->
    content = [] \/ w_disk_full w = false.
Proof.
  intros Hret content Hs. destruct content as [|b content]; [by left|].
  right. revert Hret. unfold copyfile.
  destruct (bool_decide (s = d) && path_exists (w_fs w) s); [done|].
  unfold mbind, py_bind, read_file. rewrite Hs.
  destruct (bool_decide (s ∈ w_noread w)); simpl; [done|].
  destruct (quiet_open_for_writing d w) as (_ & Hw & _).
  destruct (outcome (open_for_writing d w)); simpl; [|done..].
  unfold write_file. rewrite Hw. simpl.
  by destruct (w_disk_full w).
Qed.

(** ** The scenario, run *)

Lemma built_trace :
  trace (script Scenario.child_exits Scenario.file Scenario.built)
  = [EvMakedirs ("borg_the_spire" :: "target" :: Scenario.project);
     EvCopy ("borg_the_spire.exe" :: "debug" :: "target" :: Scenario.project)
            Scenario.slot_1 true;
     EvSpawn Scenario.slot_1
       ["/home/eli/borg_the_spire/target/borg_the_spire/borg_the_spire_copy_1.exe";
        "watch";
        "/home/eli/borg_the_spire/target/debug/borg_the_spire.exe";
        "/home/eli/borg_the_spire/target/borg_the_spire/borg_the_spire_copy_2.exe";
        "communicate";
        "/home/eli/borg_the_spire/data/last_state.json"];
     EvExit Scenario.slot_1 0].
Proof. vm_compute. reflexivity. Qed.

Lemma built_outcome :
  outcome (script Scenario.child_exits Scenario.file Scenario.built)
  = Returned 0%Z.
Proof. vm_compute. reflexivity. Qed.

Lemma unbuilt_trace :
  trace (script Scenario.child_exits Scenario.file Scenario.unbuilt)
  = [EvMakedirs ("borg_the_spire" :: "target" :: Scenario.project);
     EvCopy ("borg_the_spire.exe" :: "debug" :: "target" :: Scenario.project)
            Scenario.slot_1 false].
Proof. vm_compute. reflexivity. Qed.

Lemma unbuilt_outcome :
  outcome (script Scenario.child_exits Scenario.file Scenario.unbuilt)
  = Raised (OSError ENOENT
              ("borg_the_spire.exe" :: "debug" :: "target" :: Scenario.project)).
Proof. vm_compute. reflexivity. Qed.

Lemma interrupted_trace :
  trace (script Scenario.child_interrupted Scenario.file Scenario.built)
  = [EvMakedirs ("borg_the_spire" :: "target" :: Scenario.project);
     EvCopy ("borg_the_spire.exe" :: "debug" :: "target" :: Scenario.project)
            Scenario.slot_1 true;
     EvSpawn Scenario.slot_1 (launch_argv Scenario.file);
     EvKill Scenario.slot_1;
     EvExit Scenario.slot_1 (-9)].
Proof. vm_compute. reflexivity. Qed.

Lemma interrupted_outcome :
  outcome (script Scenario.child_interrupted Scenario.file Scenario.built)
  = Raised KeyboardInterrupt.
Proof. vm_compute. reflexivity. Qed.

Lemma scenario_copy_1 : copy_1 Scenario.file Scenario.built = Scenario.slot_1.
Proof. vm_compute. reflexivity. Qed.

Lemma scenario_copy_2 : copy_2 Scenario.file Scenario.built = Scenario.slot_2.
Proof. vm_compute. reflexivity. Qed.

(** ** The launch *)

(** C1: whenever the script launches the executable, the argument vector
    is the first copy followed by exactly [watch], the path of the
    original artifact, the path of the second copy slot, [communicate] and
    the path of the state file; the image launched is the first copy, and
    the slot passed as the hint is the other one, by name and as a file. *)
Theorem launch_argument_list child file w image argv :
  In (EvSpawn image argv) (trace (script child file w)) ->
  argv = [executable_copy_1 file; "watch"; executable_original file;
          executable_copy_2 file; "communicate"; last_state_path file]
  /\ image = copy_1 file w
  /\ executable_copy_2 file ≠ executable_copy_1 file
  /\ copy_2 file w ≠ image.
Proof.
  intros Hin.
  assert (image = copy_1 file w /\ argv = launch_argv file) as [-> ->].
  { destruct (script_execution child file w); simpl in Hin;
      intuition (try discriminate); by simplify_eq. }
  repeat split.
  - intros Heq. by apply (executable_copy_1_not_copy_2 file).
  - intros Heq. by apply (copy_1_not_copy_2 file w).
Qed.

Lemma launch_argument_list_witness :
  In (EvSpawn Scenario.slot_1 (launch_argv Scenario.file))
     (trace (script Scenario.child_exits Scenario.file Scenario.built))
  /\ launch_argv Scenario.file
     = ["/home/eli/borg_the_spire/target/borg_the_spire/borg_the_spire_copy_1.exe";
        "watch";
        "/home/eli/borg_the_spire/target/debug/borg_the_spire.exe";
        "/home/eli/borg_the_spire/target/borg_the_spire/borg_the_spire_copy_2.exe";
        "communicate";
        "/home/eli/borg_the_spire/data/last_state.json"]
  /\ copy_2 Scenario.file Scenario.built ≠ Scenario.slot_1.
Proof.
  assert (In (EvSpawn Scenario.slot_1 (launch_argv Scenario.file))
            (trace (script Scenario.child_exits Scenario.file Scenario.built)))
    as Hin.
  { rewrite built_trace. right. right. left. reflexivity. }
  split; [exact Hin|]. split; [reflexivity|].
  apply (launch_argument_list _ _ _ _ _ Hin).
Defined.

(** ** Instances alive *)

(** Evaluates [alive] on a trace whose events are known. *)
Ltac eval_alive :=
  unfold alive; simpl; rewrite ?decide_True by done; simpl.

(** C2: after any number of events of an execution at most one instance
    launched by the script is alive, and when the script has exited (with
    whatever status) none is. *)
Theorem at_most_one_instance_alive child file w :
  (forall n, length (alive (take n (trace (script child file w)))) <= 1)
  /\ (forall status,
        exit_status (outcome (script child file w)) = Some status ->
        length (alive (trace (script child file w))) <= 1
        /\ alive (trace (script child file w)) = []).
Proof.
  destruct (script_execution child file w); simpl trace; simpl outcome; split.
  all: try (intros n; do 6 (try destruct n as [|n]); eval_alive; lia).
  all: intros status Hstatus; eval_alive; try done; auto with lia.
Qed.

Lemma at_most_one_instance_alive_witness :
  exit_status
    (outcome (script Scenario.child_exits Scenario.file Scenario.built))
  = Some 0%Z
  /\ length (alive (take 3 (trace (script Scenario.child_exits Scenario.file
                                     Scenario.built)))) <= 1
  /\ alive (trace (script Scenario.child_exits Scenario.file Scenario.built))
     = [].
Proof.
  assert (exit_status
            (outcome (script Scenario.child_exits Scenario.file
                        Scenario.built)) = Some 0%Z) as Hexit.
  { vm_compute. reflexivity. }
  split; [exact Hexit|]. split.
  - apply (at_most_one_instance_alive Scenario.child_exits Scenario.file
             Scenario.built).
  - apply (proj2 (at_most_one_instance_alive Scenario.child_exits
                    Scenario.file Scenario.built) _ Hexit).
Defined.

Example alive_while_running :
  alive (take 3 (trace (script Scenario.child_exits Scenario.file
                          Scenario.built)))
  = [Scenario.slot_1].
Proof. vm_compute. reflexivity. Qed.

(** ** The copy *)

Lemma shutil_copyfile_final src dst w :
  final (shutil_copyfile src dst w)
  = final (copyfile (resolve (w_cwd w) src) (resolve (w_cwd w) dst) w).
Proof. reflexivity. Qed.

Lemma shutil_copyfile_outcome src dst w :
  outcome (shutil_copyfile src dst w)
  = outcome (copyfile (resolve (w_cwd w) src) (resolve (w_cwd w) dst) w).
Proof. reflexivity. Qed.

(** C4: when the script's copy returns, from whatever world [w] it was
    started in, the first copy slot holds exactly the bytes the artifact
    held in [w], and the artifact still holds them. *)
Theorem copy_is_byte_for_byte file w a :
  outcome (shutil_copyfile (executable_original file)
             (executable_copy_1 file) w) = Returned a ->
  exists content,
    stat (w_fs w) (original file w) = Some (File content)
    /\ readable w (original file w) = true
    /\ stat (w_fs (final (shutil_copyfile (executable_original file)
                            (executable_copy_1 file) w)))
            (copy_1 file w) = Some (File content)
    /\ stat (w_fs (final (shutil_copyfile (executable_original file)
                            (executable_copy_1 file) w)))
            (original file w) = Some (File content).
Proof.
  rewrite shutil_copyfile_outcome, shutil_copyfile_final.
  fold (original file w) (copy_1 file w). intros Hret.
  destruct (copyfile_same_bytes _ _ _ _ (original_copy_1_length file w) Hret)
    as (content & Hsrc & Hsrc' & Hdst).
  apply copyfile_returned in Hret as (content' & Hsrc'' & Hread & _).
  exists content. by repeat split.
Qed.

Lemma copy_is_byte_for_byte_witness :
  outcome (shutil_copyfile (executable_original Scenario.file)
             (executable_copy_1 Scenario.file) Scenario.prepared)
  = Returned tt
  /\ stat (w_fs (final (shutil_copyfile (executable_original Scenario.file)
                          (executable_copy_1 Scenario.file)
                          Scenario.prepared)))
          Scenario.slot_1
     = Some (File Scenario.artifact).
Proof.
  assert (outcome (shutil_copyfile (executable_original Scenario.file)
                     (executable_copy_1 Scenario.file) Scenario.prepared)
          = Returned tt) as Hret.
  { vm_compute. reflexivity. }
  split; [exact Hret|].
  destruct (copy_is_byte_for_byte Scenario.file Scenario.prepared tt Hret)
    as (content & Hsrc & _ & Hdst & _).
  vm_compute in Hsrc. injection Hsrc as <-. exact Hdst.
Defined.

(** C6: in every execution any copy into a slot, made or only attempted,
    comes before any launch from that slot, so that the slot is written
    before its process starts and never after; and a slot that holds the
    image of a live process is not written at all: the copy raises and
    leaves the world as it was. *)
Theorem slot_written_before_launch child file w :
  (forall i j s d ok argv,
     trace (script child file w) !! i = Some (EvCopy s d ok) ->
     trace (script child file w) !! j = Some (EvSpawn d argv) ->
     i < j)
  /\ (forall w' old,
        copy_1 file w' ∈ w_busy w' ->
        stat (w_fs w') (copy_1 file w') = Some (File old) ->
        exists e,
          shutil_copyfile (executable_original file)
            (executable_copy_1 file) w'
          = Run [EvCopy (original file w') (copy_1 file w') false] w'
                (Raised e)).
Proof.
  split.
  - intros i j s d ok argv.
    destruct (script_execution child file w); simpl;
      do 6 (try destruct i as [|i]); simpl; try done;
      do 6 (try destruct j as [|j]); simpl; try done; lia.
  - intros w' old Hbusy Hslot.
    destruct (copyfile_busy (original file w') _ _ _ Hbusy Hslot) as [e He].
    exists e. by apply shutil_copyfile_raised.
Qed.

Lemma slot_written_before_launch_witness :
  trace (script Scenario.child_exits Scenario.file Scenario.built) !! 1
  = Some (EvCopy (original Scenario.file Scenario.built) Scenario.slot_1 true)
  /\ trace (script Scenario.child_exits Scenario.file Scenario.built) !! 2
     = Some (EvSpawn Scenario.slot_1 (launch_argv Scenario.file))
  /\ 1 < 2.
Proof.
  assert (trace (script Scenario.child_exits Scenario.file Scenario.built) !! 1
          = Some (EvCopy (original Scenario.file Scenario.built)
                    Scenario.slot_1 true)) as Hcopy.
  { vm_compute. reflexivity. }
  assert (trace (script Scenario.child_exits Scenario.file Scenario.built) !! 2
          = Some (EvSpawn Scenario.slot_1 (launch_argv Scenario.file)))
    as Hspawn.
  { vm_compute. reflexivity. }
  split; [exact Hcopy|]. split; [exact Hspawn|].
  exact (proj1 (slot_written_before_launch Scenario.child_exits Scenario.file
                  Scenario.built) _ _ _ _ _ _ Hcopy Hspawn).
Defined.

(** ** The directory of the copy slots *)





(** ** Which slot is chosen *)



Section TwoSlots.
Variables a b : path.
Hypothesis Hab : a ≠ b.









End TwoSlots.



Example four_rotations :
  rotation_slots [Scenario.slot_1; Scenario.slot_2] None 4
  = [Scenario.slot_1; Scenario.slot_2; Scenario.slot_1; Scenario.slot_2].
Proof. reflexivity. Qed.

(** ** When the copy fails *)

(** [shutil.copyfile] raises [OSError] or [SameFileError], nothing else. *)
Lemma copyfile_raised_kind s d w e :
  outcome (copyfile s d w) = Raised e -> e ≠ KeyboardInterrupt.
Proof.
  unfold copyfile.
  destruct (bool_decide (s = d) && path_exists (w_fs w) s);
    [by intros [= <-]|].
  unfold mbind, py_bind, read_file.
  destruct (stat (w_fs w) s) as [[|content]|]; simpl;
    try (by intros [= <-]).
  destruct (bool_decide (s ∈ w_noread w)); simpl; [by intros [= <-]|].
  unfold open_for_writing. destruct d as [|c parent]; simpl;
    [by intros [= <-]|].
  destruct (stat (w_fs w) parent) as [[|pc]|]; simpl;
    try (by intros [= <-]).
  destruct (w_fs w !! (c :: parent)) as [[|old]|]; simpl;
    repeat (case_bool_decide; simpl);
    try (by intros [= <-]);
    unfold write_file; destruct content; simpl; try done;
    destruct (w_disk_full w); simpl; try done; by intros [= <-].
Qed.

(** C5, as stated, fails: with the artifact missing the copy is attempted
    once and never again. *)
Lemma no_retry_counterexample :
  readable Scenario.unbuilt (original Scenario.file Scenario.unbuilt) = false
  /\ ~ retries_failed_copy
         (trace (script Scenario.child_exits Scenario.file Scenario.unbuilt)).
Proof.
  split; [vm_compute; reflexivity|].
  intros Hretry. rewrite unbuilt_trace in Hretry.
  specialize (Hretry _ _ (or_introl eq_refl)). simpl in Hretry. lia.
Qed.

(** Whatever keeps the copy from being made makes it raise. *)
Lemma copyfile_cannot s d w :
  cannot_copy w s d -> s ≠ d ->
  exists code filename, outcome (copyfile s d w) = Raised (OSError code filename).
Proof.
  intros Hcannot Hne.
  destruct (quiet_copyfile s d w) as (_ & _ & Hblocked).
  destruct (outcome (copyfile s d w)) as [r|e|] eqn:Hout; [|clear Hcannot|done].
  - exfalso.
    pose proof (copyfile_returned_room _ _ _ _ Hout) as Hroom.
    apply copyfile_returned in Hout as (content & Hs & Hr & Hw & _).
    destruct Hcannot as [Hno|[Hno|(Hfull & b & content' & Hs')]];
      [congruence..|].
    destruct (Hroom _ Hs') as [?|?]; congruence.
  - destruct (copyfile_raises_OSError s d w e Hne Hout)
      as (code & filename & ->).
    by exists code, filename.
Qed.

(** C5, amended: a source that cannot be read, a destination that cannot
    be created or truncated (a missing parent, no permission, the image
    of a live process) or a disk with no room for the bytes makes the
    script's copy raise an [OSError], never return; the script does not
    catch the exception, so there is no retry, delay or backoff: the
    failed copy is the only copy and the last event of the execution,
    nothing is launched, and the script ends at once with the [OSError]
    and exit status 1. *)
Theorem copy_failure_is_final child file w :
  (forall w',
     cannot_copy w' (original file w') (copy_1 file w') ->
     exists code filename,
       outcome (shutil_copyfile (executable_original file)
                  (executable_copy_1 file) w')
       = Raised (OSError code filename))
  /\ (forall s d,
        In (s, d, false) (copies (trace (script child file w))) ->
        copies (trace (script child file w)) = [(s, d, false)]
        /\ last (trace (script child file w)) = Some (EvCopy s d false)
        /\ launches (trace (script child file w)) = []
        /\ (exists code filename,
              outcome (script child file w) = Raised (OSError code filename))
        /\ exit_status (outcome (script child file w)) = Some 1%Z).
Proof.
  split.
  - intros w' Hcannot. rewrite shutil_copyfile_outcome.
    apply copyfile_cannot; [done|apply original_not_copy_1].
  - intros s d Hin.
    destruct (script_execution child file w) as
      [w1 e Hmk|w1 w2 e Hmk Hcp| | | | ];
      simpl in Hin; destruct_or?; try done; simplify_eq.
    destruct (copyfile_raises_OSError (original file w) (copy_1 file w) w1 e)
      as (code & filename & ->).
    { apply original_not_copy_1. }
    { by rewrite Hcp. }
    simpl. split; [done|]. split; [done|]. split; [done|].
    split; [by exists code, filename|done].
Qed.

Lemma copy_failure_is_final_witness :
  In (original Scenario.file Scenario.unbuilt, Scenario.slot_1, false)
     (copies (trace (script Scenario.child_exits Scenario.file
                       Scenario.unbuilt)))
  /\ launches (trace (script Scenario.child_exits Scenario.file
                        Scenario.unbuilt)) = []
  /\ exit_status (outcome (script Scenario.child_exits Scenario.file
                             Scenario.unbuilt)) = Some 1%Z
  /\ cannot_copy Cases.full_disk (original Scenario.file Cases.full_disk)
       (copy_1 Scenario.file Cases.full_disk)
  /\ exists code filename,
       outcome (shutil_copyfile (executable_original Scenario.file)
                  (executable_copy_1 Scenario.file) Cases.full_disk)
       = Raised (OSError code filename).
Proof.
  assert (In (original Scenario.file Scenario.unbuilt, Scenario.slot_1, false)
            (copies (trace (script Scenario.child_exits Scenario.file
                              Scenario.unbuilt)))) as Hin.
  { rewrite unbuilt_trace. left. vm_compute. reflexivity. }
  assert (cannot_copy Cases.full_disk
            (original Scenario.file Cases.full_disk)
            (copy_1 Scenario.file Cases.full_disk)) as Hfull.
  { right. right. split; [reflexivity|].
    exists x4d, [x5a; x90; x00]. vm_compute. reflexivity. }
  split; [exact Hin|].
  destruct (copy_failure_is_final Scenario.child_exits Scenario.file
              Scenario.unbuilt) as [Hcopy Hrun].
  destruct (Hrun _ _ Hin) as (_ & _ & Hlaunch & _ & Hstatus).
  split; [exact Hlaunch|]. split; [exact Hstatus|].
  split; [exact Hfull|]. exact (Hcopy _ Hfull).
Defined.

Example copy_on_a_full_disk :
  outcome (shutil_copyfile (executable_original Scenario.file)
             (executable_copy_1 Scenario.file) Cases.full_disk)
  = Raised (OSError ENOSPC Scenario.slot_1).
Proof. vm_compute. reflexivity. Qed.

(** ** The mode of the launch *)

(** C7, as stated, fails: the word after the program is [watch], and
    [initialize] is no argument of the launch at all. *)
Lemma initialize_mode_counterexample :
  ~ launches_in_mode "initialize"
      (trace (script Scenario.child_exits Scenario.file Scenario.built))
  /\ forall image argv,
       In (image, argv)
          (launches (trace (script Scenario.child_exits Scenario.file
                              Scenario.built))) ->
       ~ In "initialize" argv.
Proof.
  rewrite built_trace. split.
  - intros Hmode. specialize (Hmode _ _ (or_introl eq_refl)). discriminate.
  - intros image argv [[= <- <-]|[]]. simpl. intuition discriminate.
Qed.

(** C7, amended: when the script launches, it has first copied the
    artifact into copy slot 1, the first candidate (it has no previous
    slot), and it launches that copy in [watch] mode, with the original
    artifact, the second slot, the word [communicate] and the path of the
    state file as the arguments that follow. *)
Theorem first_copy_then_watch child file w image argv :
  In (image, argv) (launches (trace (script child file w))) ->
  trace (script child file w) !! 1
  = Some (EvCopy (original file w) image true)
  /\ trace (script child file w) !! 2 = Some (EvSpawn image argv)
  /\ head (candidate_slots file w) = Some image
  /\ launch_mode argv = "watch"
  /\ argv = [executable_copy_1 file; "watch"; executable_original file;
             executable_copy_2 file; "communicate"; last_state_path file].
Proof.
  intros Hin.
  destruct (script_execution child file w); simpl in Hin;
    intuition (try discriminate); by simplify_eq.
Qed.

Lemma first_copy_then_watch_witness :
  In (Scenario.slot_1, launch_argv Scenario.file)
     (launches (trace (script Scenario.child_exits Scenario.file
                         Scenario.built)))
  /\ launch_mode (launch_argv Scenario.file) = "watch"
  /\ nth 5 (launch_argv Scenario.file) ""
     = "/home/eli/borg_the_spire/data/last_state.json".
Proof.
  assert (In (Scenario.slot_1, launch_argv Scenario.file)
            (launches (trace (script Scenario.child_exits Scenario.file
                                Scenario.built)))) as Hin.
  { rewrite built_trace. left. reflexivity. }
  split; [exact Hin|].
  destruct (first_copy_then_watch _ _ _ _ _ Hin) as (_ & _ & _ & Hmode & _).
  split; [exact Hmode|reflexivity].
Defined.

(** ** The exit status *)

(** C8, as stated, fails: the script has no handler for a stop request.
    When the operator stops it while the launched program runs, the
    interrupt goes through [subprocess.run] uncaught and the status is
    not 0. *)
Lemma stop_status_counterexample :
  stopped_by_operator
    (trace (script Scenario.child_interrupted Scenario.file Scenario.built))
  /\ exit_status
       (outcome (script Scenario.child_interrupted Scenario.file
                   Scenario.built)) = Some 130%Z
  /\ ~ exits_zero_on_stop
         (script Scenario.child_interrupted Scenario.file Scenario.built).
Proof.
  assert (stopped_by_operator
            (trace (script Scenario.child_interrupted Scenario.file
                      Scenario.built))) as Hstop.
  { exists Scenario.slot_1. rewrite interrupted_trace. simpl. auto. }
  split; [exact Hstop|]. split.
  - by rewrite interrupted_outcome.
  - intros Hzero. specialize (Hzero Hstop).
    rewrite interrupted_outcome in Hzero. discriminate.
Qed.

(** C8, amended: the script exits with status 0 exactly when the
    launched program has exited by itself (the last event is its exit and
    nobody stopped the script), whatever the program's return code; it
    exits with status 1 when the copy fails, which is on the first
    failure; and a stop by the operator gives the status of an uncaught
    interrupt, not 0. *)
Theorem exit_status_of_script child file w :
  (exit_status (outcome (script child file w)) = Some 0%Z <->
   (exists image returncode,
      last (trace (script child file w)) = Some (EvExit image returncode))
   /\ ~ stopped_by_operator (trace (script child file w)))
  /\ (forall s d,
        In (s, d, false) (copies (trace (script child file w))) ->
        exit_status (outcome (script child file w)) = Some 1%Z)
  /\ (stopped_by_operator (trace (script child file w)) ->
      exit_status (outcome (script child file w)) = Some 130%Z).
Proof.
  assert (forall image,
            In (EvKill image) (trace (script child file w)) ->
            outcome (script child file w) = Raised KeyboardInterrupt)
    as Hkilled.
  { intros image Hkill.
    destruct (script_execution child file w); simpl in Hkill;
      destruct_or?; try done; discriminate. }
  split; [split|split].
  - intros Hzero. split.
    + destruct (script_execution child file w) as
        [w1 e Hmk|w1 w2 e Hmk Hcp| | | | ]; simpl in *;
        try discriminate; try (by destruct e); by eexists _, _.
    + intros (image & Hkill). rewrite (Hkilled _ Hkill) in Hzero.
      discriminate.
  - intros [(image & returncode & Hlast) Hnot].
    destruct (script_execution child file w); simpl in *;
      try discriminate; [done|].
    exfalso. apply Hnot. eexists. simpl. eauto.
  - intros s d Hin.
    destruct (script_execution child file w) as
      [w1 e Hmk|w1 w2 e Hmk Hcp| | | | ];
      simpl in Hin; destruct_or?; try done; simplify_eq.
    assert (e ≠ KeyboardInterrupt) as Hkind.
    { apply (copyfile_raised_kind (original file w) (copy_1 file w) w1).
      by rewrite Hcp. }
    simpl. by destruct e.
  - intros (image & Hkill). by rewrite (Hkilled _ Hkill).
Qed.

Lemma exit_status_of_script_witness :
  In (original Scenario.file Scenario.unbuilt, Scenario.slot_1, false)
     (copies (trace (script Scenario.child_exits Scenario.file
                       Scenario.unbuilt)))
  /\ exit_status (outcome (script Scenario.child_exits Scenario.file
                             Scenario.unbuilt)) = Some 1%Z
  /\ exit_status (outcome (script Scenario.child_exits Scenario.file
                             Scenario.built)) = Some 0%Z.
Proof.
  assert (In (original Scenario.file Scenario.unbuilt, Scenario.slot_1, false)
            (copies (trace (script Scenario.child_exits Scenario.file
                              Scenario.unbuilt)))) as Hin.
  { rewrite unbuilt_trace. left. vm_compute. reflexivity. }
  split; [exact Hin|]. split.
  - exact (proj1 (proj2 (exit_status_of_script Scenario.child_exits
                           Scenario.file Scenario.unbuilt)) _ _ Hin).
  - apply (proj1 (exit_status_of_script Scenario.child_exits Scenario.file
                    Scenario.built)).
    rewrite built_trace. split.
    + by eexists _, _.
    + intros (image & Hkill). simpl in Hkill. destruct_or?; try done;
        discriminate.
Defined.

(** ** The shape of an execution *)

(** C9, as stated, fails: started before the artifact is built, the
    script makes no copy and launches nothing. *)
Lemma one_copy_one_launch_counterexample :
  ~ one_copy_one_launch
      (trace (script Scenario.child_exits Scenario.file Scenario.unbuilt)).
Proof. rewrite unbuilt_trace. intros [Hcopy _]. vm_compute in Hcopy. lia. Qed.

(** C9, amended: every execution attempts at most one copy, always from
    the original artifact into copy slot 1 and never into the second
    slot, and launches at most once, after the copy; an execution that
    returns made exactly that copy and that launch and returned when the
    launched program had exited, and an execution that launched has
    either seen the program exit or is still blocked waiting for it.
    There is no polling and no relaunch: all else is left to the launched
    executable. *)
Theorem straight_line_execution child file w :
  length (copies (trace (script child file w))) <= 1
  /\ length (launches (trace (script child file w))) <= 1
  /\ (forall s d ok,
        In (s, d, ok) (copies (trace (script child file w))) ->
        s = original file w /\ d = copy_1 file w /\ d ≠ copy_2 file w)
  /\ (forall returncode,
        outcome (script child file w) = Returned returncode ->
        trace (script child file w)
        = [EvMakedirs (slot_dir file w);
           EvCopy (original file w) (copy_1 file w) true;
           EvSpawn (copy_1 file w) (launch_argv file);
           EvExit (copy_1 file w) returncode])
  /\ (forall image argv,
        In (image, argv) (launches (trace (script child file w))) ->
        outcome (script child file w) = Blocked
        \/ exists returncode,
             last (trace (script child file w))
             = Some (EvExit image returncode)).
Proof.
  pose proof (copy_1_not_copy_2 file w) as Hslots.
  split; [|split; [|split; [|split]]].
  - destruct (script_execution child file w); simpl; lia.
  - destruct (script_execution child file w); simpl; lia.
  - intros s d ok Hin.
    destruct (script_execution child file w); simpl in Hin;
      destruct_or?; try done; by simplify_eq.
  - intros returncode Hret.
    destruct (script_execution child file w); simpl in *;
      try discriminate. by injection Hret as <-.
  - intros image argv Hin.
    destruct (script_execution child file w); simpl in *;
      destruct_or?; try done; simplify_eq; [right|left|right];
      done || by eexists.
Qed.

Lemma straight_line_execution_witness :
  outcome (script Scenario.child_exits Scenario.file Scenario.built)
  = Returned 0%Z
  /\ one_copy_one_launch
       (trace (script Scenario.child_exits Scenario.file Scenario.built)).
Proof.
  assert (outcome (script Scenario.child_exits Scenario.file Scenario.built)
          = Returned 0%Z) as Hret.
  { vm_compute. reflexivity. }
  split; [exact Hret|].
  destruct (straight_line_execution Scenario.child_exits Scenario.file
              Scenario.built) as (_ & _ & _ & Htrace & _).
  rewrite (Htrace _ Hret). split; reflexivity.
Defined.

(** * Further properties of the script *)

(** ** What the script changes *)














(** With a launched program that leaves the world alone, the world the
    script ends in is the one [os.makedirs] left, or the one the copy
    left after it. *)
Lemma script_final child file w :
  leaves_world_alone child ->
  let w1 := final (makedirs (slot_dir file w) true w) in
  final (script child file w) = w1
  \/ final (script child file w)
     = final (copyfile (original file w) (copy_1 file w) w1).
Proof.
  intros Halone. simpl.
  destruct (script_execution child file w) as
    [w1 e Hmk|w1 w2 e Hmk Hcp|w1 w2 code Hmk Hcp Hchild
     |w1 w2 returncode after Hmk Hcp Hchild|w1 w2 Hmk Hcp Hchild
     |w1 w2 returncode after Hmk Hcp Hchild];
    rewrite Hmk; simpl; [by left|right; rewrite Hcp; simpl..];
    try done.
  - specialize (Halone (copy_1 file w) (launch_argv file) w2).
    by rewrite Hchild in Halone.
  - specialize (Halone (copy_1 file w) (launch_argv file) w2).
    by rewrite Hchild in Halone.
Qed.

(** ** When the directory cannot be made *)

Lemma script_makedirs_raised child file w w1 e :
  makedirs (slot_dir file w) true w = Run [] w1 (Raised e) ->
  script child file w = Run [EvMakedirs (slot_dir file w)] w1 (Raised e).
Proof.
  intros Hmk. unfold script.
  by rewrite (bind_run_raised _ _ _ _ _ _ (os_makedirs_run _ _ _ _ _ Hmk)).
Qed.

Lemma stat_cons fs c (parent : path) :
  stat fs (c :: parent)
  = match stat fs parent with
    | Some Dir => fs !! (c :: parent)
    | _ => None
    end.
Proof. reflexivity. Qed.

(** [os.makedirs] on a path that names a regular file. *)
Lemma makedirs_on_file p w content :
  stat (w_fs w) p = Some (File content) ->
  makedirs p true w = Run [] w (Raised (OSError EEXIST p)).
Proof.
  intros Hfile. destruct p as [|c head]; [done|].
  pose proof Hfile as Hp. rewrite stat_cons in Hp.
  destruct (stat (w_fs w) head) as [[|other]|] eqn:Hhead; try done.
  rewrite makedirs_unfold.
  unfold mbind, py_bind, try_except_OSError, mkdir, path_exists, path_isdir.
  rewrite Hhead. cbn -[stat]. rewrite Hhead, Hp. cbn -[stat].
  by rewrite Hfile.
Qed.

(** [os.makedirs] below a path that names a regular file. *)
Lemma makedirs_below_file c (head : path) w content :
  stat (w_fs w) head = Some (File content) ->
  makedirs (c :: head) true w = Run [] w (Raised (OSError ENOTDIR (c :: head))).
Proof.
  intros Hhead. rewrite makedirs_unfold.
  unfold mbind, py_bind, try_except_OSError, mkdir, path_exists, path_isdir.
  rewrite Hhead. cbn -[stat]. rewrite Hhead. cbn -[stat].
  by rewrite stat_cons, Hhead.
Qed.

(** X5: [exist_ok] lets a directory pass, not a file.  When a regular
    file sits where the directory of the copy slots should be, the script
    ends with [FileExistsError] on it; when a regular file sits at
    [target], with [NotADirectoryError].  Either way it ends right after
    the call, with status 1 and the world as it was: nothing is copied
    and nothing launched. *)
Theorem file_in_the_way child file w content :
  (stat (w_fs w) (slot_dir file w) = Some (File content) ->
   script child file w
   = Run [EvMakedirs (slot_dir file w)] w
         (Raised (OSError EEXIST (slot_dir file w))))
  /\ (stat (w_fs w) (tail (slot_dir file w)) = Some (File content) ->
      script child file w
      = Run [EvMakedirs (slot_dir file w)] w
            (Raised (OSError ENOTDIR (slot_dir file w)))).
Proof.
  split; intros Hfile; apply script_makedirs_raised.
  - by apply makedirs_on_file with content.
  - rewrite slot_dir_eq in *. by apply makedirs_below_file with content.
Qed.

Lemma file_in_the_way_witness :
  stat (w_fs Cases.blocked) (slot_dir Scenario.file Cases.blocked)
  = Some (File [])
  /\ exit_status (outcome (script Scenario.child_exits Scenario.file
                             Cases.blocked)) = Some 1%Z
  /\ final (script Scenario.child_exits Scenario.file Cases.blocked)
     = Cases.blocked.
Proof.
  assert (stat (w_fs Cases.blocked) (slot_dir Scenario.file Cases.blocked)
          = Some (File [])) as Hfile.
  { vm_compute. reflexivity. }
  split; [exact Hfile|].
  rewrite (proj1 (file_in_the_way Scenario.child_exits Scenario.file
                    Cases.blocked []) Hfile).
  split; reflexivity.
Defined.

(** ** When the artifact is not there *)














(** ** Running the script again *)

Lemma quiet_cwd {A : Type} (m : py A) w :
  quiet m -> w_cwd (final (m w)) = w_cwd w.
Proof. intros Hq. destruct (Hq w) as (_ & -> & _). reflexivity. Qed.

Lemma quiet_disk_full {A : Type} (m : py A) w :
  quiet m -> w_disk_full (final (m w)) = w_disk_full w.
Proof. intros Hq. destruct (Hq w) as (_ & -> & _). reflexivity. Qed.

Lemma quiet_busy {A : Type} (m : py A) w :
  quiet m -> w_busy (final (m w)) = w_busy w.
Proof. intros Hq. destruct (Hq w) as (_ & -> & _). reflexivity. Qed.

(** Copying again what the destination holds already changes no file,
    whether the copy returns or raises. *)
Lemma copyfile_again s d w content :
  stat (w_fs w) s = Some (File content) ->
  w_fs w !! d = Some (File content) ->
  content = [] \/ w_disk_full w = false ->
  w_fs (final (copyfile s d w)) = w_fs w.
Proof.
  intros Hs Hd Hroom. unfold copyfile.
  destruct (bool_decide (s = d) && path_exists (w_fs w) s); [done|].
  unfold mbind, py_bind, read_file. rewrite Hs.
  destruct (bool_decide (s ∈ w_noread w)); simpl; [done|].
  unfold open_for_writing. destruct d as [|c parent]; [done|].
  destruct (stat (w_fs w) parent) as [[|pc]|]; try done.
  rewrite Hd.
  destruct (bool_decide (c :: parent ∈ w_busy w)); [done|].
  destruct (bool_decide (c :: parent ∈ w_nowrite w)); [done|].
  simpl. unfold write_file.
  destruct Hroom as [-> | Hfull].
  - simpl. by apply insert_id.
  - destruct content as [|b content]; simpl.
    + by apply insert_id.
    + rewrite Hfull. simpl. rewrite insert_insert_eq. by apply insert_id.
Qed.

(** X7: a second run changes no file, provided the launched program
    leaves the world alone.  After a run that returned, the files a
    second run leaves are the files the first one left: the directory is
    there, and slot 1 is overwritten with the bytes it holds already, or
    not at all. *)
Theorem second_run_changes_no_file child file w returncode :
  leaves_world_alone child ->
  outcome (script child file w) = Returned returncode ->
  w_fs (final (script child file (final (script child file w))))
  = w_fs (final (script child file w)).
Proof.
  intros Halone Hret.
  pose proof (script_final child file (final (script child file w)) Halone)
    as Hsecond. simpl in Hsecond. revert Hsecond.
  destruct (script_execution child file w) as
    [w1 e Hmk|w1 w2 e Hmk Hcp|w1 w2 code Hmk Hcp Hchild
     |w1 w2 rc after Hmk Hcp Hchild|w1 w2 Hmk Hcp Hchild
     |w1 w2 rc after Hmk Hcp Hchild]; try done.
  simpl. clear Hret.
  assert (after = w2) as ->.
  { specialize (Halone (copy_1 file w) (launch_argv file) w2).
    by rewrite Hchild in Halone. }
  assert (w_cwd w1 = w_cwd w) as Hcwd1.
  { pose proof (quiet_cwd _ w (quiet_makedirs (slot_dir file w) true)) as H.
    by rewrite Hmk in H. }
  assert (w_cwd w2 = w_cwd w) as Hcwd2.
  { pose proof (quiet_cwd _ w1
                  (quiet_copyfile (original file w) (copy_1 file w))) as H.
    rewrite Hcp in H. simpl in H. congruence. }
  assert (w_disk_full w2 = w_disk_full w1) as Hfull.
  { pose proof (quiet_disk_full _ w1
                  (quiet_copyfile (original file w) (copy_1 file w))) as H.
    by rewrite Hcp in H. }
  unfold slot_dir, original, copy_1. rewrite Hcwd2.
  fold (slot_dir file w) (original file w) (copy_1 file w).
  assert (outcome (copyfile (original file w) (copy_1 file w) w1)
          = Returned tt) as Hret by by rewrite Hcp.
  destruct (copyfile_same_bytes _ _ _ _ (original_copy_1_length file w) Hret)
    as (content & Hsrc & Hsrc' & _).
  pose proof (copyfile_returned_room _ _ _ _ Hret _ Hsrc) as Hroom.
  apply copyfile_returned in Hret as (content' & Hsrc'' & _ & _ & _ & Hfs).
  assert (content' = content) as -> by congruence.
  rewrite Hcp in Hsrc', Hfs. simpl in Hsrc', Hfs.
  assert (path_isdir (w_fs w2) (slot_dir file w) = true) as Hdir.
  { pose proof (makedirs_isdir (slot_dir file w) w tt) as Hdir.
    rewrite Hmk in Hdir. specialize (Hdir eq_refl). simpl in Hdir.
    unfold path_isdir in *. rewrite Hfs, stat_insert_other; [done| |].
    - rewrite copy_1_eq. simpl. lia.
    - rewrite copy_1_eq. intros H. apply (f_equal length) in H.
      simpl in H. lia. }
  rewrite (makedirs_exists _ _ Hdir). simpl.
  intros [-> | ->]; [done|].
  apply copyfile_again with content.
  - done.
  - rewrite Hfs. apply lookup_insert_eq.
  - by rewrite Hfull.
Qed.

Lemma second_run_changes_no_file_witness :
  outcome (script Scenario.child_exits Scenario.file Scenario.built)
  = Returned 0%Z
  /\ w_fs (final (script Scenario.child_exits Scenario.file
                    (final (script Scenario.child_exits Scenario.file
                              Scenario.built))))
     = w_fs (final (script Scenario.child_exits Scenario.file Scenario.built)).
Proof.
  assert (outcome (script Scenario.child_exits Scenario.file Scenario.built)
          = Returned 0%Z) as Hret.
  { vm_compute. reflexivity. }
  split; [exact Hret|].
  exact (second_run_changes_no_file Scenario.child_exits Scenario.file
           Scenario.built 0%Z (fun image argv w => eq_refl) Hret).
Defined.

(** ** When the copy is still running *)

(** X8: started while copy slot 1 is the image of a live process (the
    program a run before launched is still alive), the script cannot
    replace the copy: the copy raises an [OSError], nothing is launched,
    and the world is left exactly as it was found. *)
Theorem busy_slot_is_left_alone child file w old :
  copy_1 file w ∈ w_busy w ->
  stat (w_fs w) (copy_1 file w) = Some (File old) ->
  exists e,
    is_OSError e
    /\ script child file w
       = Run [EvMakedirs (slot_dir file w);
              EvCopy (original file w) (copy_1 file w) false]
             w (Raised e).
Proof.
  intros Hbusy Hslot.
  assert (path_isdir (w_fs w) (slot_dir file w) = true) as Hdir.
  { unfold path_isdir. rewrite copy_1_eq, stat_cons in Hslot.
    by destruct (stat (w_fs w) (slot_dir file w)) as [[|content]|]. }
  pose proof (makedirs_exists _ _ Hdir) as Hmk.
  destruct (copyfile_busy (original file w) _ _ _ Hbusy Hslot) as [e Hcp].
  exists e. split.
  - apply (copyfile_raises_OSError (original file w) (copy_1 file w) w).
    + apply original_not_copy_1.
    + by rewrite Hcp.
  - unfold script.
    rewrite (bind_run_returned _ _ _ _ _ _ (os_makedirs_run _ _ _ _ _ Hmk)).
    by rewrite (bind_run_raised _ _ _ _ _ _
                  (shutil_copyfile_raised _ _ _ _ _ Hcp)).
Qed.

Lemma busy_slot_is_left_alone_witness :
  copy_1 Scenario.file Cases.still_running ∈ w_busy Cases.still_running
  /\ stat (w_fs Cases.still_running) (copy_1 Scenario.file Cases.still_running)
     = Some (File Scenario.artifact)
  /\ exists e,
       is_OSError e
       /\ script Scenario.child_exits Scenario.file Cases.still_running
          = Run [EvMakedirs (slot_dir Scenario.file Cases.still_running);
                 EvCopy (original Scenario.file Cases.still_running)
                        (copy_1 Scenario.file Cases.still_running) false]
                Cases.still_running (Raised e).
Proof.
  assert (copy_1 Scenario.file Cases.still_running
          ∈ w_busy Cases.still_running) as Hbusy.
  { change (w_busy Cases.still_running) with ({[Scenario.slot_1]} : gset path).
    apply elem_of_singleton_2. vm_compute. reflexivity. }
  assert (stat (w_fs Cases.still_running)
            (copy_1 Scenario.file Cases.still_running)
          = Some (File Scenario.artifact)) as Hslot.
  { vm_compute. reflexivity. }
  split; [exact Hbusy|]. split; [exact Hslot|].
  exact (busy_slot_is_left_alone Scenario.child_exits Scenario.file
           Cases.still_running Scenario.artifact Hbusy Hslot).
Defined.

(** ** A first run *)

Lemma mkdir_new c (head : path) w handler :
  stat (w_fs w) head = Some Dir -> w_fs w !! (c :: head) = None ->
  head ∉ w_nowrite w ->
  try_except_OSError (mkdir (c :: head)) handler w
  = Run [] (set_fs w (<[c :: head := Dir]> (w_fs w))) (Returned tt).
Proof.
  intros Hhead Hp Hw. unfold try_except_OSError, mkdir.
  by rewrite Hhead, Hp, bool_decide_eq_false_2.
Qed.

(** [os.makedirs] when only the last directory is missing. *)
Lemma makedirs_new c (head : path) w :
  stat (w_fs w) head = Some Dir -> w_fs w !! (c :: head) = None ->
  head ∉ w_nowrite w ->
  makedirs (c :: head) true w
  = Run [] (set_fs w (<[c :: head := Dir]> (w_fs w))) (Returned tt).
Proof.
  intros Hhead Hp Hw. rewrite makedirs_unfold.
  erewrite bind_run_returned.
  2:{ unfold path_exists. rewrite Hhead. reflexivity. }
  by rewrite mkdir_new.
Qed.

(** X9: on a checkout that has no [target] directory yet, below a project
    directory that is there and may be written, [os.makedirs] makes both
    [target] and [target/borg_the_spire] and returns; nothing else
    changes. *)
Theorem fresh_checkout_makes_both_directories file w :
  let root := resolve (w_cwd w) (root_path file) in
  stat (w_fs w) root = Some Dir ->
  w_fs w !! ("target" :: root) = None ->
  w_fs w !! slot_dir file w = None ->
  root ∉ w_nowrite w ->
  "target" :: root ∉ w_nowrite w ->
  os_makedirs (posixpath.join (root_path file) "target/borg_the_spire") true w
  = Run [EvMakedirs (slot_dir file w)]
        (set_fs w (<[slot_dir file w := Dir]>
                     (<["target" :: root := Dir]> (w_fs w))))
        (Returned tt).
Proof.
  intros root Hroot Htarget Hslot Hwroot Hwtarget.
  apply os_makedirs_run. fold (slot_dir file w).
  rewrite slot_dir_eq in *. fold root in Hslot |- *.
  pose proof (makedirs_new "target" root w Hroot Htarget Hwroot) as Hfirst.
  rewrite makedirs_unfold.
  erewrite bind_run_returned.
  2:{ unfold path_exists. rewrite stat_cons, Hroot, Htarget.
      unfold try_except_OSError. rewrite Hfirst. reflexivity. }
  rewrite mkdir_new; [done| | |done].
  - by apply stat_insert_self.
  - simpl. rewrite lookup_insert_ne; [done|].
    intros H. apply (f_equal length) in H. simpl in H. lia.
Qed.

Lemma fresh_checkout_makes_both_directories_witness :
  path_isdir
    (w_fs (final (os_makedirs
                    (posixpath.join (root_path Scenario.file)
                       "target/borg_the_spire")
                    true Scenario.unbuilt)))
    ("target" :: Scenario.project) = true
  /\ path_isdir
       (w_fs (final (os_makedirs
                       (posixpath.join (root_path Scenario.file)
                          "target/borg_the_spire")
                       true Scenario.unbuilt)))
       (slot_dir Scenario.file Scenario.unbuilt) = true.
Proof.
  rewrite (fresh_checkout_makes_both_directories Scenario.file
             Scenario.unbuilt).
  - split; vm_compute; reflexivity.
  - vm_compute. reflexivity.
  - vm_compute. reflexivity.
  - vm_compute. reflexivity.
  - apply not_elem_of_empty.
  - apply not_elem_of_empty.
Defined.
